(** * servconf: the server configuration object of ghost/servconf/servconf.go

    A shallow embedding of package [servconf] and the properties of its
    setters, getters, constructor and web projection.

    Go strings are byte sequences: they are modelled as [string] (a list of
    8-bit [ascii]), a [[]byte] as an optional list of [ascii] ([None] is the
    nil slice), an [error] as an optional message ([None] is nil), an [int32]
    as [Z] (the code only stores and copies ports, it never computes on
    them), and a pointer to a heap object as an optional address. *)

From Stdlib Require Import List String Ascii Bool Arith ZArith Lia FinFun.
From Stdlib Require Import Numbers.DecimalString.
Import ListNotations.

Set Implicit Arguments.

Local Open Scope string_scope.
Local Open Scope list_scope.

(** ** Go values *)

(** [error]: nil or a value carrying a message. *)
Definition error := option string.

(** A call returning [(value, error)]. *)
Inductive result (A : Type) : Type :=
| Ok (a : A)
| Fail (err : string).
Arguments Fail {A} err.

(** A call that either returns or panics. *)
Inductive outcome (A : Type) : Type :=
| Returns (a : A)
| Panics (err : string).
Arguments Panics {A} err.

(** [[]byte]: nil, or a slice with the given content. *)
Definition byteslice := option (list ascii).

(** [[]byte(s)] *)
Definition to_bytes (s : string) : byteslice := Some (list_ascii_of_string s).

(** [string(b)] *)
Definition of_bytes (b : byteslice) : string :=
  match b with
  | None => EmptyString
  | Some l => string_of_list_ascii l
  end.

(** [bytes.Equal(a, b)]: the library defines it as [string(a) == string(b)],
    so that a nil slice and an empty slice are equal. *)
Definition bytes_Equal (a b : byteslice) : bool :=
  String.eqb (of_bytes a) (of_bytes b).

(** ** Package regexp

    The syntax tree of the operators the pattern of this package uses, and
    a backtracking matcher with the leftmost-first (Perl) preference that
    package regexp documents for [Find]. The matcher works on bytes: the
    classes of the pattern hold ASCII only, and an ASCII byte is a rune of
    its own in every byte sequence, so that matching by runes and by bytes
    agree for it. *)
Module regexp.

Inductive Regexp : Type :=
| CharClass (ranges : list (ascii * ascii))   (* [lo-hi...] *)
| Concat (a b : Regexp)                       (* ab *)
| Star (a : Regexp)                           (* a*, greedy *)
| Quest (a : Regexp)                          (* a?, greedy *)
| Capture (a : Regexp).                       (* (a) *)

Definition in_range (c : ascii) (r : ascii * ascii) : bool :=
  Ascii.leb (fst r) c && Ascii.leb c (snd r).

Definition in_class (ranges : list (ascii * ascii)) (c : ascii) : bool :=
  existsb (in_range c) ranges.

(** The threads of a greedy star: every thread of one more iteration that
    consumed input comes before the thread that leaves the loop. *)
Fixpoint star_threads (fuel : nat)
    (body : list ascii -> list (list ascii)) (s : list ascii)
  : list (list ascii) :=
  match fuel with
  | O => [s]
  | S fuel' =>
      flat_map
        (fun s' =>
           if Nat.ltb (List.length s') (List.length s)
           then star_threads fuel' body s' else [])
        (body s)
      ++ [s]
  end.

(** [threads re s]: the inputs left by every way [re] matches a prefix of
    [s], in order of preference. *)
Fixpoint threads (re : Regexp) : list ascii -> list (list ascii) :=
  match re with
  | CharClass ranges =>
      fun s =>
        match s with
        | c :: s' => if in_class ranges c then [s'] else []
        | [] => []
        end
  | Concat a b => fun s => flat_map (threads b) (threads a s)
  | Star a => fun s => star_threads (List.length s) (threads a) s
  | Quest a => fun s => threads a s ++ [s]
  | Capture a => threads a
  end.

(** The leftmost match: the preferred thread at the first position that has
    one. *)
Fixpoint find_from (re : Regexp) (s : list ascii) : byteslice :=
  match threads re s with
  | rest :: _ => Some (firstn (List.length s - List.length rest) s)
  | [] =>
      match s with
      | [] => None
      | _ :: s' => find_from re s'
      end
  end.

(** [re.Find(b)]: the text of the leftmost match in [b], nil when there is
    none. *)
Definition Find (re : Regexp) (b : byteslice) : byteslice :=
  match b with
  | None => find_from re []
  | Some l => find_from re l
  end.

(** The language of an expression: the texts it matches as a whole, which
    is what [^re$] asks for. *)
Inductive matches : Regexp -> list ascii -> Prop :=
| m_class ranges c :
    in_class ranges c = true -> matches (CharClass ranges) [c]
| m_concat a b u v :
    matches a u -> matches b v -> matches (Concat a b) (u ++ v)
| m_star_nil a : matches (Star a) []
| m_star_app a u v :
    matches a u -> matches (Star a) v -> matches (Star a) (u ++ v)
| m_quest_nil a : matches (Quest a) []
| m_quest a u : matches a u -> matches (Quest a) u
| m_capture a u : matches a u -> matches (Capture a) u.

End regexp.

(** ** Package strings *)
Module strings.

Definition RuneSelf : ascii := "128"%char.

Definition is_upper (c : ascii) : bool :=
  Ascii.leb "A" c && Ascii.leb c "Z".

(** [c += 'a' - 'A'] *)
Definition lower_byte (c : ascii) : ascii :=
  if is_upper c then ascii_of_nat (nat_of_ascii c + 32) else c.

Fixpoint isASCII (s : string) : bool :=
  match s with
  | EmptyString => true
  | String c s' => Ascii.ltb c RuneSelf && isASCII s'
  end.

Fixpoint hasUpper (s : string) : bool :=
  match s with
  | EmptyString => false
  | String c s' => is_upper c || hasUpper s'
  end.

Fixpoint map_bytes (f : ascii -> ascii) (s : string) : string :=
  match s with
  | EmptyString => EmptyString
  | String c s' => String (f c) (map_bytes f s')
  end.

(** [strings.ToLower(s)]: the library lowers an ASCII-only string byte by
    byte (returning [s] itself when it holds no upper-case letter) and maps
    [unicode.ToLower] over the runes of any other string; the latter is the
    argument [unicode_map]. *)
Definition ToLower (unicode_map : string -> string) (s : string) : string :=
  if isASCII s then
    if hasUpper s then map_bytes lower_byte s else s
  else unicode_map s.

End strings.

(** ** What package servconf imports

    The package calls into k8s.io/apimachinery, k8s.io/client-go, package
    flag and package unicode, and reads the process environment. None of
    that is code of the package: the development is parametric in it, so
    that every result holds whatever these functions compute. *)
Class Imports : Type := {
  (** [strings.Map(unicode.ToLower, s)] *)
  unicode_ToLower_map : string -> string;
  (** [resource.Quantity], its zero value, [resource.ParseQuantity] and
      the method [OpenAPISchemaFormat] *)
  Quantity : Type;
  Quantity_zero : Quantity;
  ParseQuantity : string -> result Quantity;
  OpenAPISchemaFormat : Quantity -> string;
  (** [homedir.HomeDir()] and [filepath.Join] *)
  HomeDir : string;
  filepath_Join : list string -> string;
  (** the value of the flag named [name], declared by [flag.String] with
      the default [value], once [flag.Parse()] has read the command line *)
  flag_String_Parse : forall (name value : string), string;
  (** [rest.Config] and [clientcmd.BuildConfigFromFlags] *)
  RestConfig : Type;
  BuildConfigFromFlags : string -> string -> result RestConfig;
  (** [kubernetes.Clientset] and the object that [kubernetes.NewForConfig]
      builds; the pointer it returns is the address of that new object in
      the heap of [Process] *)
  Clientset : Type;
  NewForConfig : RestConfig -> result Clientset
}.

(** ** Package servconf *)
Section servconf.

Context {imports : Imports}.

(** [type ServerConfig struct]; [protocol] is an [apiv1.Protocol], a string
    type, and [clientset] a pointer into the heap of the process. *)
Record ServerConfig : Type := mkServerConfig {
  username : string;
  serverName : string;
  serverType : string;
  cpu : Quantity;
  ram : Quantity;
  disk : Quantity;
  ip : string;
  internalPort : Z;
  externalPort : Z;
  protocol : string;
  clientset : option nat
}.

(** [type WebConfig struct] *)
Record WebConfigView : Type := mkWebConfig {
  Username : string;
  ServerName : string;
  ServerType : string;
  CPU : string;
  RAM : string;
  Disk : string;
  IP : string;
  InternalPort : Z;
  ExternalPort : Z
}.

(** [&ServerConfig{}] *)
Definition zeroServerConfig : ServerConfig :=
  mkServerConfig "" "" "" Quantity_zero Quantity_zero Quantity_zero
                 "" 0%Z 0%Z "" None.

(** Assignments to one field. *)
Definition with_username (cfg : ServerConfig) (v : string) :=
  mkServerConfig v (serverName cfg) (serverType cfg) (cpu cfg) (ram cfg)
    (disk cfg) (ip cfg) (internalPort cfg) (externalPort cfg) (protocol cfg)
    (clientset cfg).
Definition with_serverName (cfg : ServerConfig) (v : string) :=
  mkServerConfig (username cfg) v (serverType cfg) (cpu cfg) (ram cfg)
    (disk cfg) (ip cfg) (internalPort cfg) (externalPort cfg) (protocol cfg)
    (clientset cfg).
Definition with_serverType (cfg : ServerConfig) (v : string) :=
  mkServerConfig (username cfg) (serverName cfg) v (cpu cfg) (ram cfg)
    (disk cfg) (ip cfg) (internalPort cfg) (externalPort cfg) (protocol cfg)
    (clientset cfg).
Definition with_cpu (cfg : ServerConfig) (v : Quantity) :=
  mkServerConfig (username cfg) (serverName cfg) (serverType cfg) v (ram cfg)
    (disk cfg) (ip cfg) (internalPort cfg) (externalPort cfg) (protocol cfg)
    (clientset cfg).
Definition with_ram (cfg : ServerConfig) (v : Quantity) :=
  mkServerConfig (username cfg) (serverName cfg) (serverType cfg) (cpu cfg) v
    (disk cfg) (ip cfg) (internalPort cfg) (externalPort cfg) (protocol cfg)
    (clientset cfg).
Definition with_disk (cfg : ServerConfig) (v : Quantity) :=
  mkServerConfig (username cfg) (serverName cfg) (serverType cfg) (cpu cfg)
    (ram cfg) v (ip cfg) (internalPort cfg) (externalPort cfg) (protocol cfg)
    (clientset cfg).
Definition with_ip (cfg : ServerConfig) (v : string) :=
  mkServerConfig (username cfg) (serverName cfg) (serverType cfg) (cpu cfg)
    (ram cfg) (disk cfg) v (internalPort cfg) (externalPort cfg) (protocol cfg)
    (clientset cfg).
Definition with_internalPort (cfg : ServerConfig) (v : Z) :=
  mkServerConfig (username cfg) (serverName cfg) (serverType cfg) (cpu cfg)
    (ram cfg) (disk cfg) (ip cfg) v (externalPort cfg) (protocol cfg)
    (clientset cfg).
Definition with_externalPort (cfg : ServerConfig) (v : Z) :=
  mkServerConfig (username cfg) (serverName cfg) (serverType cfg) (cpu cfg)
    (ram cfg) (disk cfg) (ip cfg) (internalPort cfg) v (protocol cfg)
    (clientset cfg).
Definition with_protocol (cfg : ServerConfig) (v : string) :=
  mkServerConfig (username cfg) (serverName cfg) (serverType cfg) (cpu cfg)
    (ram cfg) (disk cfg) (ip cfg) (internalPort cfg) (externalPort cfg) v
    (clientset cfg).
Definition with_clientset (cfg : ServerConfig) (v : option nat) :=
  mkServerConfig (username cfg) (serverName cfg) (serverType cfg) (cpu cfg)
    (ram cfg) (disk cfg) (ip cfg) (internalPort cfg) (externalPort cfg)
    (protocol cfg) v.

(** [regexp.MustCompile(`[a-z]([-a-z0-9]*[a-z0-9])?`)]: the tree of the
    pattern that the three identifier setters compile. *)
Definition identExp : regexp.Regexp :=
  regexp.Concat
    (regexp.CharClass [("a", "z")]%char)
    (regexp.Quest
       (regexp.Capture
          (regexp.Concat
             (regexp.Star
                (regexp.CharClass [("-", "-"); ("a", "z"); ("0", "9")]%char))
             (regexp.CharClass [("a", "z"); ("0", "9")]%char)))).

Definition ToLower : string -> string := strings.ToLower unicode_ToLower_map.

Definition GetUsername (cfg : ServerConfig) : string := username cfg.

Definition setUsername (cfg : ServerConfig) (name : string)
  : ServerConfig * error :=
  let exp := identExp in
  if negb (bytes_Equal (regexp.Find exp (to_bytes name)) (to_bytes name)) then
    (cfg,
     Some "username must contain only alphanumeric, lowercase characters")
  else
    (with_username cfg (ToLower name), None).

Definition GetServerName (cfg : ServerConfig) : string := serverName cfg.

Definition setServerName (cfg : ServerConfig) (name : string)
  : ServerConfig * error :=
  let exp := identExp in
  if negb (bytes_Equal (regexp.Find exp (to_bytes name)) (to_bytes name)) then
    (cfg,
     Some "servername must contain only alphanumeric, lowercase characters")
  else
    (with_serverName cfg (ToLower name), None).

Definition GetServerType (cfg : ServerConfig) : string := serverType cfg.

Definition SetType (cfg : ServerConfig) (type : string)
  : ServerConfig * error :=
  let exp := identExp in
  if negb (bytes_Equal (regexp.Find exp (to_bytes type)) (to_bytes type)) then
    (cfg,
     Some "servertype must contain only alphanumeric, lowercase characters")
  else
    (with_serverType cfg (ToLower type), None).

Definition GetInternalPort (cfg : ServerConfig) : Z := internalPort cfg.
Definition SetInternalPort (cfg : ServerConfig) (port : Z) : ServerConfig :=
  with_internalPort cfg port.

Definition GetExternalPort (cfg : ServerConfig) : Z := externalPort cfg.
Definition SetExternalPort (cfg : ServerConfig) (port : Z) : ServerConfig :=
  with_externalPort cfg port.

Definition GetIP (cfg : ServerConfig) : string := ip cfg.
Definition SetIP (cfg : ServerConfig) (addr : string) : ServerConfig :=
  with_ip cfg addr.

Definition GetProtocol (cfg : ServerConfig) : string := protocol cfg.
Definition SetProtocol (cfg : ServerConfig) (proto : string) : ServerConfig :=
  with_protocol cfg proto.

Definition GetCPU (cfg : ServerConfig) : Quantity := cpu cfg.
Definition SetCPU (cfg : ServerConfig) (s : string) : ServerConfig :=
  match ParseQuantity s with
  | Ok n => with_cpu cfg n
  | Fail _ => cfg
  end.

Definition GetRAM (cfg : ServerConfig) : Quantity := ram cfg.
Definition SetRAM (cfg : ServerConfig) (s : string) : ServerConfig :=
  match ParseQuantity (s ++ "Gi") with
  | Ok n => with_ram cfg n
  | Fail _ => cfg
  end.

Definition GetDisk (cfg : ServerConfig) : Quantity := disk cfg.
Definition SetDisk (cfg : ServerConfig) (s : string) : ServerConfig :=
  match ParseQuantity (s ++ "Gi") with
  | Ok n => with_disk cfg n
  | Fail _ => cfg
  end.

Definition GetKubeConfig (cfg : ServerConfig) : option nat := clientset cfg.

Definition WebConfig (cfg : ServerConfig) : WebConfigView :=
  {| Username := GetUsername cfg;
     ServerName := GetServerName cfg;
     ServerType := GetServerType cfg;
     CPU := OpenAPISchemaFormat (GetCPU cfg);
     RAM := OpenAPISchemaFormat (GetRAM cfg);
     Disk := OpenAPISchemaFormat (GetRAM cfg);
     IP := GetIP cfg;
     InternalPort := GetInternalPort cfg;
     ExternalPort := GetExternalPort cfg |}.

(** The state of the process that [New] reads and writes: the package
    variable [kubeconfig] (a [*string]: [None] is nil, [Some p] points to
    the value [p] of the flag) and the Clientset objects allocated so far,
    the address of an object being its index. *)
Record Process : Type := mkProcess {
  kubeconfig : option string;
  clientsets : list Clientset
}.

Definition New (w : Process) (name server : string)
  : outcome (Process * ServerConfig) :=
  let cfg := zeroServerConfig in
  let w :=
    match kubeconfig w with
    | None =>
        let home := HomeDir in
        if negb (String.eqb home "") then
          mkProcess
            (Some (flag_String_Parse "kubeconfig"
                     (filepath_Join [home; ".kube"; "config"])))
            (clientsets w)
        else
          mkProcess (Some (flag_String_Parse "kubeconfig" ""))
            (clientsets w)
    | Some _ => w
    end in
  match kubeconfig w with
  | None => Panics "invalid memory address or nil pointer dereference"
  | Some path =>
      match BuildConfigFromFlags "" path with
      | Fail err => Panics err
      | Ok config =>
          match NewForConfig config with
          | Fail err => Panics err
          | Ok cs =>
              let addr := List.length (clientsets w) in
              let w := mkProcess (kubeconfig w) (clientsets w ++ [cs]) in
              let cfg := with_clientset cfg (Some addr) in
              let cfg := fst (setUsername cfg name) in
              let cfg := fst (setServerName cfg server) in
              Returns (w, cfg)
          end
      end
  end.

End servconf.

(** ** The notions the properties are stated with *)

(** The test the three identifier setters share:
    [bytes.Equal(exp.Find([]byte(s)), []byte(s))]. *)
Definition found_whole (s : string) : bool :=
  bytes_Equal (regexp.Find identExp (to_bytes s)) (to_bytes s).

(** [s] matches [^[a-z]([-a-z0-9]*[a-z0-9])?$]: the whole of [s] is in the
    language of the pattern. *)
Definition matches_ident (s : string) : Prop :=
  regexp.matches identExp (list_ascii_of_string s).

Definition is_lower (c : ascii) : bool := Ascii.leb "a" c && Ascii.leb c "z".
Definition is_digit (c : ascii) : bool := Ascii.leb "0" c && Ascii.leb c "9".
Definition is_hyphen (c : ascii) : bool := Ascii.eqb c "-".
Definition is_underscore (c : ascii) : bool := Ascii.eqb c "_".

(** The identifier pattern in the words of the specification: a lowercase
    letter first, then lowercase letters, digits and hyphens only, and a
    lowercase letter or a digit last (one lowercase letter alone is
    valid). *)
Definition valid_bytes (l : list ascii) : bool :=
  match l with
  | [] => false
  | c :: rest =>
      is_lower c
      && forallb (fun x => is_lower x || is_digit x || is_hyphen x) rest
      && (is_lower (last rest c) || is_digit (last rest c))
  end.

Definition valid_identifier (s : string) : bool :=
  valid_bytes (list_ascii_of_string s).

(** A string holding an upper-case letter or an underscore. *)
Definition has_upper_or_underscore (s : string) : bool :=
  existsb (fun c => strings.is_upper c || is_underscore c)
          (list_ascii_of_string s).

(** A string whose first byte is a digit or a hyphen. *)
Definition leading_digit_or_hyphen (s : string) : bool :=
  match s with
  | String c _ => is_digit c || is_hyphen c
  | EmptyString => false
  end.

Section operations.

Context {imports : Imports}.

(** The calls that change a configuration. *)
Inductive Call : Type :=
| CallSetUsername (s : string)
| CallSetServerName (s : string)
| CallSetType (s : string)
| CallSetInternalPort (p : Z)
| CallSetExternalPort (p : Z)
| CallSetIP (s : string)
| CallSetProtocol (s : string)
| CallSetCPU (s : string)
| CallSetRAM (s : string)
| CallSetDisk (s : string).

Definition call (cfg : ServerConfig) (c : Call) : ServerConfig :=
  match c with
  | CallSetUsername s => fst (setUsername cfg s)
  | CallSetServerName s => fst (setServerName cfg s)
  | CallSetType s => fst (SetType cfg s)
  | CallSetInternalPort p => SetInternalPort cfg p
  | CallSetExternalPort p => SetExternalPort cfg p
  | CallSetIP s => SetIP cfg s
  | CallSetProtocol s => SetProtocol cfg s
  | CallSetCPU s => SetCPU cfg s
  | CallSetRAM s => SetRAM cfg s
  | CallSetDisk s => SetDisk cfg s
  end.

Definition calls (cfg : ServerConfig) (cs : list Call) : ServerConfig :=
  fold_left call cs cfg.

(** A stored identifier is empty or matches the pattern as a whole. *)
Definition ident_ok (s : string) : Prop := s = "" \/ matches_ident s.

Definition identifiers_ok (cfg : ServerConfig) : Prop :=
  ident_ok (username cfg) /\ ident_ok (serverName cfg)
  /\ ident_ok (serverType cfg).

(** The same invariant with the pattern in the words of the
    specification, as a test that computes. *)
Definition stored_ok (s : string) : Prop :=
  s = "" \/ valid_identifier s = true.

Definition stored_all_ok (cfg : ServerConfig) : Prop :=
  stored_ok (username cfg) /\ stored_ok (serverName cfg)
  /\ stored_ok (serverType cfg).

Definition identifiers_lower (cfg : ServerConfig) : Prop :=
  strings.hasUpper (username cfg) = false
  /\ strings.hasUpper (serverName cfg) = false
  /\ strings.hasUpper (serverType cfg) = false.

(** The path [New] hands to [clientcmd.BuildConfigFromFlags] in the
    process state [w]. *)
Definition kubeconfig_path (w : Process) : string :=
  match kubeconfig w with
  | Some p => p
  | None =>
      if String.eqb HomeDir "" then flag_String_Parse "kubeconfig" ""
      else flag_String_Parse "kubeconfig"
             (filepath_Join [HomeDir; ".kube"; "config"])
  end.

(** Several constructions, one after the other, in one process. *)
Fixpoint NewAll (w : Process) (args : list (string * string))
  : outcome (Process * list ServerConfig) :=
  match args with
  | [] => Returns (w, [])
  | (name, server) :: args' =>
      match New w name server with
      | Panics err => Panics err
      | Returns (w', cfg) =>
          match NewAll w' args' with
          | Panics err => Panics err
          | Returns (w'', cfgs) => Returns (w'', cfg :: cfgs)
          end
      end
  end.

End operations.

(** ** An instance of the imports, to run the package on concrete inputs *)
Module Sample.

Inductive unit_suffix : Type := NoSuffix | Gi.

(** Modelled from the spec: [resource.Quantity] is declared in
    k8s.io/apimachinery, not under src/. Glossary: "a numeric magnitude
    with an optional unit suffix (e.g., CPU cores, gibibytes)". *)
Record quantity : Type := mkQuantity {
  magnitude : N;
  suffix : unit_suffix
}.

(** The amount in base units: a gibibyte is 2^30 bytes. *)
Definition amount (q : quantity) : N :=
  match suffix q with
  | NoSuffix => magnitude q
  | Gi => (magnitude q * 2 ^ 30)%N
  end.

Definition digit_of (c : ascii) : option N :=
  if is_digit c then Some (N_of_ascii c - 48)%N else None.

Fixpoint read_magnitude (s : string) (acc : N) : N * string :=
  match s with
  | EmptyString => (acc, s)
  | String c s' =>
      match digit_of c with
      | Some d => read_magnitude s' (10 * acc + d)%N
      | None => (acc, s)
      end
  end.

(** Modelled from the spec: [resource.ParseQuantity] is not under src/.
    It reads a decimal magnitude and an optional suffix; of the suffixes
    only the "Gi" that the package appends is modelled, and signs,
    fractions and exponents are left out. *)
Definition parse (s : string) : result quantity :=
  match s with
  | EmptyString => Fail "quantities must match the regular expression"
  | String c _ =>
      if is_digit c then
        let (n, rest) := read_magnitude s 0%N in
        if String.eqb rest "" then Ok (mkQuantity n NoSuffix)
        else if String.eqb rest "Gi" then Ok (mkQuantity n Gi)
        else Fail "unable to parse quantity's suffix"
      else Fail "quantities must match the regular expression"
  end.

(** Modelled from the spec: the method [OpenAPISchemaFormat] of
    [resource.Quantity] is not under src/. Section 4.1: "numeric quantities
    render through their canonical external-format string
    representation". *)
Definition format (q : quantity) : string :=
  NilZero.string_of_uint (N.to_uint (magnitude q))
  ++ match suffix q with NoSuffix => "" | Gi => "Gi" end.

(** A home directory with a kubeconfig that names a cluster, a second file
    that names none, and no [-kubeconfig] on the command line. *)
Definition load (masterUrl path : string) : result string :=
  if String.eqb path "/home/ghost/.kube/config" then Ok "https://10.0.0.1:6443"
  else if String.eqb path "/etc/ghost/empty" then Ok ""
  else Fail "stat: no such file or directory".

Definition connect (host : string) : result string :=
  if String.eqb host "" then Fail "host must be a URL or a host:port pair"
  else Ok host.

#[export] Instance sample_imports : Imports := {|
  unicode_ToLower_map := fun s => s;
  Quantity := quantity;
  Quantity_zero := mkQuantity 0%N NoSuffix;
  ParseQuantity := parse;
  OpenAPISchemaFormat := format;
  HomeDir := "/home/ghost";
  filepath_Join := String.concat "/";
  flag_String_Parse := fun _ value => value;
  RestConfig := string;
  BuildConfigFromFlags := load;
  Clientset := string;
  NewForConfig := connect
|}.

(** A process that has constructed nothing yet. *)
Definition fresh : Process := mkProcess None [].

(** A configuration with every field set to a valid value. *)
Definition populated : outcome ServerConfig :=
  match New fresh "alice" "web-1" with
  | Panics err => Panics err
  | Returns (_, cfg) =>
      Returns
        (calls cfg
           [CallSetType "minecraft"; CallSetCPU "2"; CallSetRAM "4";
            CallSetDisk "10"; CallSetIP "10.0.0.7";
            CallSetInternalPort 25565%Z; CallSetExternalPort 30001%Z;
            CallSetProtocol "TCP"])
  end.

End Sample.

(** ** Notions for how the setters compose *)
Section composition.

Context {imports : Imports}.

(** The field of [ServerConfig] that a call assigns. *)
Inductive Field : Type :=
| FUsername | FServerName | FServerType
| FInternalPort | FExternalPort | FIP | FProtocol
| FCPU | FRAM | FDisk.

Definition field_of (c : Call) : Field :=
  match c with
  | CallSetUsername _ => FUsername
  | CallSetServerName _ => FServerName
  | CallSetType _ => FServerType
  | CallSetInternalPort _ => FInternalPort
  | CallSetExternalPort _ => FExternalPort
  | CallSetIP _ => FIP
  | CallSetProtocol _ => FProtocol
  | CallSetCPU _ => FCPU
  | CallSetRAM _ => FRAM
  | CallSetDisk _ => FDisk
  end.

Definition parses (s : string) : bool :=
  match ParseQuantity s with
  | Ok _ => true
  | Fail _ => false
  end.

(** The call passes the test of its setter: the regexp test for the
    identifiers, the parse for the quantities, none for the rest. *)
Definition accepted (c : Call) : bool :=
  match c with
  | CallSetUsername s | CallSetServerName s | CallSetType s => found_whole s
  | CallSetCPU s => parses s
  | CallSetRAM s | CallSetDisk s => parses (s ++ "Gi")
  | CallSetInternalPort _ | CallSetExternalPort _
  | CallSetIP _ | CallSetProtocol _ => true
  end.

(** A string holding a byte that is no lowercase letter, digit or
    hyphen. *)
Definition has_foreign_byte (s : string) : bool :=
  existsb (fun c => negb (is_lower c || is_digit c || is_hyphen c))
          (list_ascii_of_string s).

(** A quantity field holds the zero value of the struct or what the parser
    returned on some input, for RAM and disk on an input that ends in
    "Gi". *)
Definition parsed_plain (q : Quantity) : Prop :=
  q = Quantity_zero \/ exists s, ParseQuantity s = Ok q.

Definition parsed_Gi (q : Quantity) : Prop :=
  q = Quantity_zero \/ exists s, ParseQuantity (s ++ "Gi") = Ok q.

End composition.

(** * Properties *)

(** ** The matcher *)
Section matcher_facts.

Import regexp.

(** The matcher on a few inputs: the leftmost match, the longest end the
    greedy star can give back to, nil where no byte starts a match. *)
Example Find_inside :
  of_bytes (Find identExp (to_bytes "XXab-c--YY")) = "ab-c".
Proof. reflexivity. Qed.

Example Find_whole :
  Find identExp (to_bytes "web-1") = to_bytes "web-1".
Proof. reflexivity. Qed.

Example Find_trailing_hyphen :
  of_bytes (Find identExp (to_bytes "web-")) = "web".
Proof. reflexivity. Qed.

Example Find_nothing : Find identExp (to_bytes "42_X") = None.
Proof. reflexivity. Qed.

Lemma in_hd (A : Type) (x : A) (l : list A) : hd_error l = Some x -> In x l.
Proof. destruct l; simpl; [discriminate | intros [= ->]; now left]. Qed.

Lemma star_threads_sound (a : Regexp) :
  (forall s rest, In rest (threads a s) ->
                  exists m, s = m ++ rest /\ matches a m) ->
  forall fuel s rest,
    In rest (star_threads fuel (threads a) s) ->
    exists m, s = m ++ rest /\ matches (Star a) m.
Proof.
  intros Hbody fuel.
  induction fuel as [|fuel IH]; intros s rest Hin; simpl in Hin.
  - destruct Hin as [<- | []]. exists []. split; [reflexivity | constructor].
  - apply in_app_or in Hin. destruct Hin as [Hin | [<- | []]].
    + apply in_flat_map in Hin. destruct Hin as [s' [Hs' Hin]].
      destruct (Nat.ltb (List.length s') (List.length s)); [| contradiction].
      destruct (Hbody _ _ Hs') as [u [-> Hu]].
      destruct (IH _ _ Hin) as [v [-> Hv]].
      exists (u ++ v). split; [now rewrite app_assoc | now constructor].
    + exists []. split; [reflexivity | constructor].
Qed.

(** Every thread of the matcher is a match of the expression. *)
Lemma threads_sound (re : Regexp) :
  forall s rest, In rest (threads re s) ->
                 exists m, s = m ++ rest /\ matches re m.
Proof.
  induction re as [ranges | a IHa b IHb | a IHa | a IHa | a IHa];
    intros s rest Hin; simpl in Hin.
  - destruct s as [|c s']; [contradiction |].
    destruct (in_class ranges c) eqn:Hc; [| contradiction].
    destruct Hin as [<- | []]. exists [c]. split; [reflexivity | now constructor].
  - apply in_flat_map in Hin. destruct Hin as [mid [Hmid Hin]].
    destruct (IHa _ _ Hmid) as [u [-> Hu]].
    destruct (IHb _ _ Hin) as [v [-> Hv]].
    exists (u ++ v). split; [now rewrite app_assoc | now constructor].
  - eapply star_threads_sound; eauto.
  - apply in_app_or in Hin. destruct Hin as [Hin | [<- | []]].
    + destruct (IHa _ _ Hin) as [u [-> Hu]]. exists u. split; [reflexivity |].
      now apply m_quest.
    + exists []. split; [reflexivity | apply m_quest_nil].
  - destruct (IHa _ _ Hin) as [u [-> Hu]]. exists u. split; [reflexivity |].
    now constructor.
Qed.

(** The text that [Find] returns is no longer than the input. *)
Lemma find_from_length (re : Regexp) :
  forall s m, find_from re s = Some m -> List.length m <= List.length s.
Proof.
  induction s as [|c s IH]; intros m H; simpl in H.
  - destruct (threads re []) as [|rest ?]; [discriminate |].
    injection H as <-. simpl. lia.
  - destruct (threads re (c :: s)) as [|rest ?].
    + apply IH in H. simpl. lia.
    + injection H as <-. rewrite length_firstn. lia.
Qed.

(** When [Find] returns the whole of a non-empty input, the preferred
    thread at its first byte consumed all of it. *)
Lemma find_from_whole (re : Regexp) (s : list ascii) :
  s <> [] -> find_from re s = Some s -> hd_error (threads re s) = Some [].
Proof.
  destruct s as [|c s]; [congruence |]. intros _ H. simpl in H.
  destruct (threads re (c :: s)) as [|rest l] eqn:Hth.
  - apply find_from_length in H. simpl in H. lia.
  - injection H as H. apply (f_equal (@List.length ascii)) in H.
    rewrite length_firstn in H. simpl in H.
    destruct rest; [reflexivity | simpl in H; lia].
Qed.

Lemma find_from_preferred (re : Regexp) (s : list ascii) (l : list (list ascii)) :
  threads re s = [] :: l -> find_from re s = Some s.
Proof.
  intros H. destruct s as [|c s]; simpl; rewrite H; simpl.
  - reflexivity.
  - now rewrite firstn_all.
Qed.

Lemma star_threads_nil (body : list ascii -> list (list ascii)) (fuel : nat) :
  body [] = [] -> star_threads fuel body [] = [[]].
Proof. intros H. destruct fuel; simpl; [| rewrite H]; reflexivity. Qed.

(** A greedy star of a class followed by a class: on an input made of
    bytes of the first class and ending in a byte of the second, the
    preferred thread consumes everything. *)
Lemma star_then_class_greedy (p q : list (ascii * ascii)) :
  forall (v : list ascii) (d : ascii) (fuel : nat),
    v <> [] ->
    Forall (fun c => in_class p c = true) v ->
    in_class q (last v d) = true ->
    List.length v <= fuel ->
    exists l,
      flat_map (threads (CharClass q))
               (star_threads fuel (threads (CharClass p)) v) = [] :: l.
Proof.
  induction v as [|x v IH]; intros d fuel Hne Hall Hlast Hfuel; [congruence |].
  destruct fuel as [|fuel]; [simpl in Hfuel; lia |].
  inversion Hall as [|? ? Hx Hv]; subst.
  cbn [star_threads threads]. rewrite Hx. cbn [flat_map].
  assert (Hlt : Nat.ltb (List.length v) (List.length (x :: v)) = true)
    by (apply Nat.ltb_lt; simpl; lia).
  rewrite Hlt, app_nil_r, flat_map_app.
  destruct v as [|y v'].
  - rewrite star_threads_nil by reflexivity.
    simpl in Hlast. simpl. rewrite Hlast. simpl. eauto.
  - destruct (IH d fuel) as [l Hl]; [congruence | assumption | | simpl in *; lia |].
    + exact Hlast.
    + cbn [threads] in Hl. rewrite Hl. simpl. eauto.
Qed.

Lemma matches_star_class (p : list (ascii * ascii)) (re : Regexp) (u : list ascii) :
  matches re u -> re = Star (CharClass p) ->
  Forall (fun c => in_class p c = true) u.
Proof.
  induction 1 as [ | | | a u v Hu _ Hv IHv | | | ]; intros Heq; try discriminate.
  - constructor.
  - injection Heq as ->. inversion Hu; subst.
    constructor; [assumption | now apply IHv].
Qed.

Lemma star_class_matches (p : list (ascii * ascii)) (u : list ascii) :
  Forall (fun c => in_class p c = true) u -> matches (Star (CharClass p)) u.
Proof.
  induction 1 as [|c u Hc _ IH]; [constructor |].
  change (c :: u) with ([c] ++ u). constructor; [now constructor | assumption].
Qed.

End matcher_facts.

(** ** The identifier pattern *)
Section identifier_facts.

Import regexp.

Ltac by_cases_on_byte c :=
  destruct c as [[] [] [] [] [] [] [] []]; vm_compute; intuition congruence.

Lemma class_lower (c : ascii) :
  in_class [("a", "z")]%char c = is_lower c.
Proof. by_cases_on_byte c. Qed.

Lemma class_lower_digit_hyphen (c : ascii) :
  in_class [("-", "-"); ("a", "z"); ("0", "9")]%char c
  = (is_lower c || is_digit c || is_hyphen c).
Proof. by_cases_on_byte c. Qed.

Lemma class_lower_digit (c : ascii) :
  in_class [("a", "z"); ("0", "9")]%char c = (is_lower c || is_digit c).
Proof. by_cases_on_byte c. Qed.

Lemma identifier_byte_ascii (c : ascii) :
  is_lower c || is_digit c || is_hyphen c = true ->
  Ascii.ltb c strings.RuneSelf = true /\ strings.is_upper c = false
  /\ is_underscore c = false.
Proof. by_cases_on_byte c. Qed.

Lemma lower_not_leading (c : ascii) :
  is_lower c = true -> is_digit c || is_hyphen c = false.
Proof. by_cases_on_byte c. Qed.

Lemma valid_bytes_all (l : list ascii) :
  valid_bytes l = true ->
  Forall (fun x => is_lower x || is_digit x || is_hyphen x = true) l.
Proof.
  destruct l as [|c rest]; simpl; [discriminate |].
  intros H. apply andb_prop in H as [H _]. apply andb_prop in H as [Hc Hall].
  constructor.
  - now rewrite Hc.
  - rewrite forallb_forall in Hall. now apply Forall_forall.
Qed.

(** The words of the specification and the language of the pattern
    agree. *)
Lemma matches_valid_bytes (l : list ascii) :
  matches identExp l -> valid_bytes l = true.
Proof.
  unfold identExp. intros H.
  inversion H as [ | a b u v Hu Hv | | | | | ]; subst; clear H.
  inversion Hu as [ranges c Hc | | | | | | ]; subst; clear Hu.
  rewrite class_lower in Hc. simpl.
  inversion Hv as [ | | | | a | a w Hw | ]; subst; clear Hv.
  - simpl. now rewrite Hc.
  - inversion Hw as [ | | | | | | a w' Hw' ]; subst; clear Hw.
    inversion Hw' as [ | a b u2 v2 Hu Hd | | | | | ]; subst; clear Hw'.
    inversion Hd as [ranges d Hd' | | | | | | ]; subst; clear Hd.
    rewrite class_lower_digit in Hd'.
    apply matches_star_class
      with (p := [("-", "-"); ("a", "z"); ("0", "9")]%char) in Hu;
      [| reflexivity].
    rewrite Hc, last_last, Hd', forallb_app. simpl.
    rewrite Hd', !andb_true_r. apply forallb_forall. intros x Hx.
    rewrite Forall_forall in Hu. rewrite <- class_lower_digit_hyphen.
    now apply Hu.
Qed.

Lemma valid_bytes_matches (l : list ascii) :
  valid_bytes l = true -> matches identExp l.
Proof.
  destruct l as [|c rest]; simpl; [discriminate |].
  intros H. apply andb_prop in H as [H Hlast]. apply andb_prop in H as [Hc Hall].
  unfold identExp. change (c :: rest) with ([c] ++ rest).
  constructor; [constructor; now rewrite class_lower |].
  destruct rest as [|x rest']; [apply m_quest_nil |].
  apply m_quest. constructor.
  rewrite (app_removelast_last c (l := x :: rest')) by discriminate.
  constructor.
  - apply star_class_matches. apply Forall_forall. intros y Hy.
    rewrite class_lower_digit_hyphen.
    rewrite forallb_forall in Hall. apply Hall.
    rewrite (app_removelast_last c (l := x :: rest')) by discriminate.
    apply in_or_app. now left.
  - constructor. now rewrite class_lower_digit.
Qed.

Lemma matches_ident_valid (s : string) :
  matches_ident s <-> valid_identifier s = true.
Proof. split; [apply matches_valid_bytes | apply valid_bytes_matches]. Qed.

(** On a valid identifier the preferred thread at the first byte consumes
    the whole input. *)
Lemma valid_bytes_preferred (l : list ascii) :
  valid_bytes l = true -> exists rest, threads identExp l = [] :: rest.
Proof.
  destruct l as [|c v]; [discriminate |].
  intros H. cbn [valid_bytes] in H.
  apply andb_prop in H as [H Hlast]. apply andb_prop in H as [Hc Hall].
  rewrite <- class_lower in Hc.
  unfold identExp. cbn [threads flat_map]. rewrite Hc. cbn [flat_map].
  rewrite app_nil_r.
  destruct v as [|x v'].
  - simpl. eauto.
  - destruct (star_then_class_greedy
                [("-", "-"); ("a", "z"); ("0", "9")]%char
                [("a", "z"); ("0", "9")]%char
                (v := x :: v') c (fuel := List.length (x :: v')))
      as [rest Hrest].
    + discriminate.
    + apply Forall_forall. intros y Hy. rewrite class_lower_digit_hyphen.
      rewrite forallb_forall in Hall. now apply Hall.
    + now rewrite class_lower_digit.
    + lia.
    + cbn [threads] in Hrest. rewrite Hrest. simpl. eauto.
Qed.

Lemma found_whole_empty : found_whole "" = true.
Proof. reflexivity. Qed.

Lemma found_whole_valid (s : string) :
  valid_identifier s = true -> found_whole s = true.
Proof.
  intros H. destruct (valid_bytes_preferred _ H) as [rest Hrest].
  unfold found_whole, bytes_Equal, to_bytes, Find.
  rewrite (find_from_preferred _ _ Hrest). apply String.eqb_refl.
Qed.

(** The test of the setters passes on the empty string and on the valid
    identifiers, and on nothing else. *)
Lemma found_whole_iff (s : string) :
  found_whole s = true <-> s = "" \/ valid_identifier s = true.
Proof.
  split.
  - unfold found_whole, bytes_Equal, to_bytes, Find. intros H.
    apply String.eqb_eq in H. simpl in H.
    rewrite string_of_list_ascii_of_string in H.
    destruct (find_from identExp (list_ascii_of_string s)) as [m|] eqn:Hfind;
      simpl in H; [| now left].
    destruct s as [|c s']; [now left |]. right.
    assert (Hm : m = list_ascii_of_string (String c s'))
      by (rewrite <- H; now rewrite list_ascii_of_string_of_list_ascii).
    subst m. apply find_from_whole in Hfind; [| discriminate].
    apply in_hd, threads_sound in Hfind. destruct Hfind as [m [Hm Hmatch]].
    rewrite app_nil_r in Hm. subst m. now apply matches_valid_bytes.
  - intros [-> | H]; [apply found_whole_empty | now apply found_whole_valid].
Qed.

Lemma ascii_lower_fixed (s : string) :
  Forall (fun x => is_lower x || is_digit x || is_hyphen x = true)
         (list_ascii_of_string s) ->
  strings.isASCII s = true /\ strings.hasUpper s = false.
Proof.
  induction s as [|c s IH]; simpl; intros H; [split; reflexivity |].
  inversion H as [|? ? Hc Hs]; subst. destruct (IH Hs) as [Ha Hu].
  destruct (identifier_byte_ascii _ Hc) as [Hc1 [Hc2 _]].
  now rewrite Hc1, Hc2, Ha, Hu.
Qed.

(** [strings.ToLower] returns a valid identifier as it is, whatever the
    mapping of non-ASCII runes. *)
Lemma ToLower_valid (f : string -> string) (s : string) :
  valid_identifier s = true -> strings.ToLower f s = s.
Proof.
  intros H. apply valid_bytes_all, ascii_lower_fixed in H as [Ha Hu].
  unfold strings.ToLower. now rewrite Ha, Hu.
Qed.

Lemma valid_identifier_lower (s : string) :
  valid_identifier s = true -> strings.hasUpper s = false.
Proof. intros H. now apply valid_bytes_all, ascii_lower_fixed in H. Qed.

End identifier_facts.

(** ** The setters of the identifiers *)
Section setter_facts.

Context {imports : Imports}.

Lemma setUsername_eq (cfg : ServerConfig) (s : string) :
  setUsername cfg s
  = if found_whole s then (with_username cfg (ToLower s), None)
    else (cfg, Some "username must contain only alphanumeric, lowercase characters").
Proof. unfold setUsername, found_whole. now destruct (bytes_Equal _ _). Qed.

Lemma setServerName_eq (cfg : ServerConfig) (s : string) :
  setServerName cfg s
  = if found_whole s then (with_serverName cfg (ToLower s), None)
    else (cfg, Some "servername must contain only alphanumeric, lowercase characters").
Proof. unfold setServerName, found_whole. now destruct (bytes_Equal _ _). Qed.

Lemma SetType_eq (cfg : ServerConfig) (s : string) :
  SetType cfg s
  = if found_whole s then (with_serverType cfg (ToLower s), None)
    else (cfg, Some "servertype must contain only alphanumeric, lowercase characters").
Proof. unfold SetType, found_whole. now destruct (bytes_Equal _ _). Qed.

(** What a setter stores is the string it was given. *)
Lemma ToLower_found_whole (s : string) :
  found_whole s = true -> ToLower s = s.
Proof.
  intros H. apply found_whole_iff in H as [-> | H]; [reflexivity |].
  now apply ToLower_valid.
Qed.

(** A non-empty string outside the pattern fails the test of the
    setters. *)
Lemma found_whole_rejects (s : string) :
  s <> "" -> ~ matches_ident s -> found_whole s = false.
Proof.
  intros Hne Hnot. destruct (found_whole s) eqn:H; [| reflexivity].
  apply found_whole_iff in H as [H | H]; [contradiction |].
  now apply matches_ident_valid in H.
Qed.

(** The three setters return their error and leave the configuration as
    it is on every non-empty string outside the pattern. *)
Lemma setters_reject (cfg : ServerConfig) (s : string) :
  s <> "" -> ~ matches_ident s ->
  setUsername cfg s
  = (cfg, Some "username must contain only alphanumeric, lowercase characters")
  /\ setServerName cfg s
     = (cfg, Some "servername must contain only alphanumeric, lowercase characters")
  /\ SetType cfg s
     = (cfg, Some "servertype must contain only alphanumeric, lowercase characters").
Proof.
  intros Hne Hnot.
  rewrite setUsername_eq, setServerName_eq, SetType_eq.
  now rewrite (found_whole_rejects Hne Hnot).
Qed.

Lemma upper_or_underscore_invalid (s : string) :
  has_upper_or_underscore s = true -> valid_identifier s = false.
Proof.
  intros H. destruct (valid_identifier s) eqn:Hv; [| reflexivity].
  apply valid_bytes_all in Hv. unfold has_upper_or_underscore in H.
  apply existsb_exists in H as [c [Hin Hc]].
  rewrite Forall_forall in Hv.
  destruct (identifier_byte_ascii _ (Hv _ Hin)) as [_ [Hu Hs]].
  rewrite Hu, Hs in Hc. discriminate.
Qed.

Lemma leading_digit_or_hyphen_invalid (s : string) :
  leading_digit_or_hyphen s = true -> valid_identifier s = false.
Proof.
  destruct s as [|c s]; simpl; [discriminate |]. intros H.
  unfold valid_identifier. simpl.
  destruct (is_lower c) eqn:Hc; [| reflexivity].
  apply lower_not_leading in Hc. congruence.
Qed.

(** C1: for every string [s] that matches
    [^[a-z]([-a-z0-9]*[a-z0-9])?$], [setUsername] returns no error, and
    [GetUsername] then returns [s] lowercased, which is [s] itself. *)
Theorem setUsername_accepts_identifier (cfg : ServerConfig) (s : string) :
  matches_ident s ->
  snd (setUsername cfg s) = None
  /\ GetUsername (fst (setUsername cfg s)) = ToLower s
  /\ ToLower s = s.
Proof.
  intros H. apply matches_ident_valid in H.
  rewrite setUsername_eq, (found_whole_valid _ H).
  repeat split. now apply ToLower_valid.
Qed.

(** C3: on the empty string each of the three identifier setters returns
    no error and stores the empty string, although the empty string does
    not match the pattern: [Find] returns nil on it, and [bytes.Equal]
    holds between nil and the empty slice. *)
Theorem setters_accept_empty_string (cfg : ServerConfig) :
  setUsername cfg "" = (with_username cfg "", None)
  /\ setServerName cfg "" = (with_serverName cfg "", None)
  /\ SetType cfg "" = (with_serverType cfg "", None)
  /\ ~ matches_ident ""
  /\ regexp.Find identExp (to_bytes "") = None
  /\ bytes_Equal None (to_bytes "") = true.
Proof.
  repeat split. intros H. apply matches_ident_valid in H. discriminate.
Qed.

(** C4: for every string [s] that holds an upper-case letter or an
    underscore, or starts with a digit or a hyphen, [setServerName]
    returns an error and the stored server name stays what it was. *)
Theorem setServerName_rejects (cfg : ServerConfig) (s : string) :
  has_upper_or_underscore s = true \/ leading_digit_or_hyphen s = true ->
  snd (setServerName cfg s)
  = Some "servername must contain only alphanumeric, lowercase characters"
  /\ fst (setServerName cfg s) = cfg
  /\ GetServerName (fst (setServerName cfg s)) = GetServerName cfg.
Proof.
  intros H.
  assert (Hne : s <> "") by (intros ->; destruct H; discriminate).
  assert (Hnot : ~ matches_ident s).
  { intros Hm. apply matches_ident_valid in Hm.
    destruct H as [H | H];
      [apply upper_or_underscore_invalid in H
      | apply leading_digit_or_hyphen_invalid in H]; congruence. }
  destruct (setters_reject cfg Hne Hnot) as [_ [-> _]]. now repeat split.
Qed.

End setter_facts.

(** ** Quantities and the web projection *)
Section projection_facts.

Context {imports : Imports}.

(** C5: [SetRAM] parses its argument with "Gi" appended and stores the
    quantity parsed: after [SetRAM("4")], [GetRAM] returns the quantity
    that "4Gi" parses to; and when the suffixed argument does not parse,
    [SetRAM] leaves the configuration, hence the RAM, as it was, and it
    returns nothing that could carry an error. *)
Theorem SetRAM_appends_Gi (cfg : ServerConfig) :
  (forall s q, ParseQuantity (s ++ "Gi") = Ok q -> GetRAM (SetRAM cfg s) = q)
  /\ (forall q, ParseQuantity "4Gi" = Ok q -> GetRAM (SetRAM cfg "4") = q)
  /\ (forall s err, ParseQuantity (s ++ "Gi") = Fail err ->
                    SetRAM cfg s = cfg /\ GetRAM (SetRAM cfg s) = GetRAM cfg).
Proof.
  repeat split.
  - intros s q H. unfold SetRAM. now rewrite H.
  - intros q H. unfold SetRAM. simpl. now rewrite H.
  - unfold SetRAM. now rewrite H.
  - unfold SetRAM. now rewrite H.
Qed.

(** C6: the [Disk] field of the projection is the formatted RAM quantity,
    and the projection does not read the disk quantity at all. *)
Theorem WebConfig_Disk_from_RAM (cfg : ServerConfig) :
  Disk (WebConfig cfg) = OpenAPISchemaFormat (GetRAM cfg)
  /\ forall d, WebConfig (with_disk cfg d) = WebConfig cfg.
Proof. split; [reflexivity | intros d; reflexivity]. Qed.

(** The other eight fields of the projection show the stored field of
    their name. *)
Lemma WebConfig_other_fields (cfg : ServerConfig) :
  Username (WebConfig cfg) = GetUsername cfg
  /\ ServerName (WebConfig cfg) = GetServerName cfg
  /\ ServerType (WebConfig cfg) = GetServerType cfg
  /\ CPU (WebConfig cfg) = OpenAPISchemaFormat (GetCPU cfg)
  /\ RAM (WebConfig cfg) = OpenAPISchemaFormat (GetRAM cfg)
  /\ IP (WebConfig cfg) = GetIP cfg
  /\ InternalPort (WebConfig cfg) = GetInternalPort cfg
  /\ ExternalPort (WebConfig cfg) = GetExternalPort cfg.
Proof. now repeat split. Qed.

End projection_facts.

(** ** The invariant of the identifiers *)
Section invariant_facts.

Context {imports : Imports}.

Lemma stored_ok_ToLower (s : string) :
  found_whole s = true -> stored_ok (ToLower s).
Proof.
  intros H. rewrite (ToLower_found_whole _ H). now apply found_whole_iff.
Qed.

Lemma stored_ok_spec (s : string) :
  stored_ok s -> ident_ok s /\ strings.hasUpper s = false.
Proof.
  intros [-> | H].
  - split; [now left | reflexivity].
  - split; [right; now apply matches_ident_valid
           | now apply valid_identifier_lower].
Qed.

Lemma zero_stored_ok : stored_all_ok zeroServerConfig.
Proof. repeat split; now left. Qed.

Lemma call_stored_ok (cfg : ServerConfig) (c : Call) :
  stored_all_ok cfg -> stored_all_ok (call cfg c).
Proof.
  intros (Hu & Hn & Ht).
  destruct c as [s | s | s | p | p | s | s | s | s | s]; simpl.
  - rewrite setUsername_eq. destruct (found_whole s) eqn:Hs; simpl.
    + repeat split; simpl; auto using stored_ok_ToLower.
    + now repeat split.
  - rewrite setServerName_eq. destruct (found_whole s) eqn:Hs; simpl.
    + repeat split; simpl; auto using stored_ok_ToLower.
    + now repeat split.
  - rewrite SetType_eq. destruct (found_whole s) eqn:Hs; simpl.
    + repeat split; simpl; auto using stored_ok_ToLower.
    + now repeat split.
  - now repeat split.
  - now repeat split.
  - now repeat split.
  - now repeat split.
  - unfold SetCPU. destruct (ParseQuantity s); now repeat split.
  - unfold SetRAM. destruct (ParseQuantity _); now repeat split.
  - unfold SetDisk. destruct (ParseQuantity _); now repeat split.
Qed.

Lemma calls_stored_ok (cs : list Call) :
  forall cfg, stored_all_ok cfg -> stored_all_ok (calls cfg cs).
Proof.
  unfold calls. induction cs as [|c cs IH]; intros cfg H; simpl; [assumption |].
  apply IH. now apply call_stored_ok.
Qed.

Lemma with_clientset_stored_ok (cfg : ServerConfig) (p : option nat) :
  stored_all_ok cfg -> stored_all_ok (with_clientset cfg p).
Proof. intros (Hu & Hn & Ht). now repeat split. Qed.

Lemma New_stored_ok (w w' : Process) (name server : string) (cfg : ServerConfig) :
  New w name server = Returns (w', cfg) -> stored_all_ok cfg.
Proof.
  unfold New. intros H.
  destruct (kubeconfig _) as [path|]; [| discriminate].
  destruct (BuildConfigFromFlags _ _) as [config|]; [| discriminate].
  destruct (NewForConfig _) as [cs|]; [| discriminate].
  injection H as _ <-.
  apply (call_stored_ok (CallSetServerName server)).
  apply (call_stored_ok (CallSetUsername name)).
  apply with_clientset_stored_ok, zero_stored_ok.
Qed.

(** C10: in a configuration that [New] has returned, and after any
    sequence of setter calls on it, each of [username], [serverName] and
    [serverType] is empty or matches
    [^[a-z]([-a-z0-9]*[a-z0-9])?$] as a whole, and none of them holds an
    upper-case letter. *)
Theorem identifiers_stay_valid
    (w w' : Process) (name server : string) (cfg : ServerConfig)
    (cs : list Call) :
  New w name server = Returns (w', cfg) ->
  identifiers_ok (calls cfg cs) /\ identifiers_lower (calls cfg cs).
Proof.
  intros H. apply New_stored_ok in H.
  destruct (calls_stored_ok cs H) as (Hu & Hn & Ht).
  apply stored_ok_spec in Hu, Hn, Ht.
  unfold identifiers_ok, identifiers_lower. tauto.
Qed.

End invariant_facts.

(** ** The constructor *)
Section constructor_facts.

Context {imports : Imports}.

Lemma clientset_setUsername (cfg : ServerConfig) (s : string) :
  clientset (fst (setUsername cfg s)) = clientset cfg.
Proof. rewrite setUsername_eq. now destruct (found_whole s). Qed.

Lemma clientset_setServerName (cfg : ServerConfig) (s : string) :
  clientset (fst (setServerName cfg s)) = clientset cfg.
Proof. rewrite setServerName_eq. now destruct (found_whole s). Qed.

(** [New] in terms of the path it loads: it panics with the error of the
    first library call that fails, and otherwise allocates a Clientset and
    returns a configuration that points to it. *)
Lemma New_eq (w : Process) (name server : string) :
  New w name server
  = match BuildConfigFromFlags "" (kubeconfig_path w) with
    | Fail err => Panics err
    | Ok config =>
        match NewForConfig config with
        | Fail err => Panics err
        | Ok cs =>
            Returns
              (mkProcess (Some (kubeconfig_path w)) (clientsets w ++ [cs]),
               fst (setServerName
                      (fst (setUsername
                              (with_clientset zeroServerConfig
                                 (Some (List.length (clientsets w))))
                              name))
                      server))
        end
    end.
Proof.
  unfold New, kubeconfig_path.
  destruct (kubeconfig w) as [p|] eqn:Hk.
  - rewrite Hk. reflexivity.
  - destruct (String.eqb HomeDir ""); reflexivity.
Qed.

Lemma New_returns (w w' : Process) (name server : string) (cfg : ServerConfig) :
  New w name server = Returns (w', cfg) ->
  kubeconfig w' = Some (kubeconfig_path w)
  /\ (exists cs, clientsets w' = clientsets w ++ [cs])
  /\ GetKubeConfig cfg = Some (List.length (clientsets w)).
Proof.
  rewrite New_eq.
  destruct (BuildConfigFromFlags _ _) as [config|]; [| discriminate].
  destruct (NewForConfig _) as [cs|]; [| discriminate].
  intros [= <- <-]. repeat split.
  - now exists cs.
  - unfold GetKubeConfig.
    now rewrite clientset_setServerName, clientset_setUsername.
Qed.

Lemma NewAll_returns (args : list (string * string)) :
  forall (w w' : Process) (cfgs : list ServerConfig),
    NewAll w args = Returns (w', cfgs) ->
    map GetKubeConfig cfgs
    = map Some (seq (List.length (clientsets w)) (List.length args))
    /\ List.length (clientsets w')
       = List.length (clientsets w) + List.length args
    /\ kubeconfig_path w' = kubeconfig_path w
    /\ (forall p, kubeconfig w = Some p -> kubeconfig w' = Some p).
Proof.
  induction args as [|[name server] args IH]; intros w w' cfgs H; simpl in H.
  - injection H as <- <-. simpl. repeat split; auto.
  - destruct (New w name server) as [[w1 cfg]|] eqn:Hnew; [| discriminate].
    destruct (NewAll w1 args) as [[w2 cfgs']|] eqn:Hall; [| discriminate].
    injection H as <- <-.
    apply New_returns in Hnew as (Hk & [cs Hcs] & Hcfg).
    apply IH in Hall as (Hmap & Hlen & Hpath & Hkeep).
    assert (Hp1 : kubeconfig_path w1 = kubeconfig_path w)
      by (unfold kubeconfig_path at 1; now rewrite Hk).
    rewrite Hcs, length_app in Hmap, Hlen. simpl in Hmap, Hlen.
    repeat split.
    + simpl. rewrite Hcfg, Hmap. now rewrite Nat.add_1_r.
    + simpl. lia.
    + congruence.
    + intros p Hp. apply Hkeep. rewrite Hk. unfold kubeconfig_path.
      now rewrite Hp.
Qed.

(** C8, as the code has it: the package variable [kubeconfig], the path
    of the credentials, is set by the first construction and kept by every
    later one, while a client is built by every construction: after [n]
    constructions in one process [n] more clients exist, and no two of the
    instances hold the same client handle. *)
Theorem New_builds_a_client_each_time
    (w w' : Process) (args : list (string * string))
    (cfgs : list ServerConfig) :
  NewAll w args = Returns (w', cfgs) ->
  List.length (clientsets w') = List.length (clientsets w) + List.length args
  /\ NoDup (map GetKubeConfig cfgs)
  /\ kubeconfig_path w' = kubeconfig_path w
  /\ (forall p, kubeconfig w = Some p -> kubeconfig w' = Some p).
Proof.
  intros H. apply NewAll_returns in H as (Hmap & Hlen & Hpath & Hkeep).
  repeat split; auto.
  rewrite Hmap. apply Injective_map_NoDup; [| apply seq_NoDup].
  intros x y Hxy. now injection Hxy.
Qed.

(** C9: when loading the credentials fails, or when building the client
    fails, [New] panics with the error of the failed call; and [New]
    returns a configuration only when both calls have succeeded. *)
Theorem New_fails_fatally (w : Process) (name server : string) :
  (forall err,
      BuildConfigFromFlags "" (kubeconfig_path w) = Fail err ->
      New w name server = Panics err)
  /\ (forall config err,
         BuildConfigFromFlags "" (kubeconfig_path w) = Ok config ->
         NewForConfig config = Fail err ->
         New w name server = Panics err)
  /\ (forall w' cfg,
         New w name server = Returns (w', cfg) ->
         exists config cs,
           BuildConfigFromFlags "" (kubeconfig_path w) = Ok config
           /\ NewForConfig config = Ok cs).
Proof.
  rewrite New_eq. repeat split.
  - intros err H. now rewrite H.
  - intros config err H1 H2. now rewrite H1, H2.
  - intros w' cfg H.
    destruct (BuildConfigFromFlags _ _) as [config|]; [| discriminate].
    destruct (NewForConfig config) as [cs|] eqn:Hcs; [| discriminate].
    now exists config, cs.
Qed.

End constructor_facts.

(** ** Runs of the package on the sample imports *)
Section sample_runs.

Import Sample.

Lemma setUsername_accepts_identifier_witness :
  matches_ident "web-1"
  /\ snd (setUsername zeroServerConfig "web-1") = None
  /\ GetUsername (fst (setUsername zeroServerConfig "web-1")) = ToLower "web-1"
  /\ ToLower "web-1" = "web-1".
Proof.
  assert (H : matches_ident "web-1") by (apply matches_ident_valid; reflexivity).
  split; [exact H | exact (setUsername_accepts_identifier zeroServerConfig H)].
Defined.

Lemma setServerName_rejects_witness :
  has_upper_or_underscore "Web_1" = true
  /\ snd (setServerName zeroServerConfig "Web_1")
     = Some "servername must contain only alphanumeric, lowercase characters"
  /\ fst (setServerName zeroServerConfig "Web_1") = zeroServerConfig
  /\ GetServerName (fst (setServerName zeroServerConfig "Web_1")) = GetServerName zeroServerConfig.
Proof.
  split; [reflexivity |].
  apply (setServerName_rejects zeroServerConfig "Web_1"). left. reflexivity.
Defined.

Lemma SetRAM_appends_Gi_witness :
  amount (GetRAM (SetRAM zeroServerConfig "4")) = (4 * 2 ^ 30)%N
  /\ SetRAM (SetRAM zeroServerConfig "4") "not-a-number"
     = SetRAM zeroServerConfig "4"
  /\ GetRAM (SetRAM (SetRAM zeroServerConfig "4") "not-a-number")
     = GetRAM (SetRAM zeroServerConfig "4").
Proof.
  pose proof (@SetRAM_appends_Gi sample_imports zeroServerConfig) as H1.
  pose proof (@SetRAM_appends_Gi sample_imports
                (SetRAM zeroServerConfig "4")) as H2.
  split.
  - rewrite (proj1 (proj2 H1) (mkQuantity 4 Gi) eq_refl). reflexivity.
  - exact (proj2 (proj2 H2) "not-a-number"
             "quantities must match the regular expression" eq_refl).
Defined.

Lemma New_builds_a_client_each_time_witness :
  exists w' cfgs,
    NewAll fresh [("alice", "web-1"); ("bob", "web-2"); ("alice", "db")]
    = Returns (w', cfgs)
    /\ List.length (clientsets w') = List.length (clientsets fresh) + 3
    /\ NoDup (map GetKubeConfig cfgs)
    /\ kubeconfig_path w' = kubeconfig_path fresh
    /\ (forall p, kubeconfig fresh = Some p -> kubeconfig w' = Some p).
Proof.
  eexists. eexists. split; [vm_compute; reflexivity |].
  apply (@New_builds_a_client_each_time sample_imports fresh _
           [("alice", "web-1"); ("bob", "web-2"); ("alice", "db")] _).
  vm_compute. reflexivity.
Defined.

Lemma New_fails_fatally_witness :
  New (mkProcess (Some "/var/missing") []) "alice" "web-1"
  = Panics "stat: no such file or directory"
  /\ New (mkProcess (Some "/etc/ghost/empty") []) "alice" "web-1"
     = Panics "host must be a URL or a host:port pair"
  /\ exists config cs,
       BuildConfigFromFlags "" (kubeconfig_path fresh) = Ok config
       /\ NewForConfig config = Ok cs.
Proof.
  pose proof (@New_fails_fatally sample_imports
                (mkProcess (Some "/var/missing") []) "alice" "web-1") as H1.
  pose proof (@New_fails_fatally sample_imports
                (mkProcess (Some "/etc/ghost/empty") []) "alice" "web-1")
    as H2.
  pose proof (@New_fails_fatally sample_imports fresh "alice" "web-1") as H3.
  split; [| split].
  - apply (proj1 H1). reflexivity.
  - apply (proj1 (proj2 H2) EmptyString); reflexivity.
  - eapply (proj2 (proj2 H3)). vm_compute. reflexivity.
Defined.

Lemma identifiers_stay_valid_witness :
  exists w' cfg,
    New fresh "alice" "Web_1" = Returns (w', cfg)
    /\ identifiers_ok
         (calls cfg [CallSetUsername "Bob!"; CallSetType "minecraft";
                     CallSetServerName "web-1"; CallSetType "";
                     CallSetRAM "4"; CallSetUsername "bob"])
    /\ identifiers_lower
         (calls cfg [CallSetUsername "Bob!"; CallSetType "minecraft";
                     CallSetServerName "web-1"; CallSetType "";
                     CallSetRAM "4"; CallSetUsername "bob"]).
Proof.
  eexists. eexists. split; [vm_compute; reflexivity |].
  eapply (@identifiers_stay_valid sample_imports fresh _ "alice" "Web_1").
  vm_compute. reflexivity.
Defined.

(** C2: the setters do not refuse every string outside the pattern, the
    empty string passes: in a configuration whose three identifiers are
    set, each setter called with the empty string, which does not match
    the pattern, returns no error and replaces the stored identifier by
    the empty string. *)
Theorem empty_string_replaces_identifier :
  exists cfg,
    populated = Returns cfg
    /\ ~ matches_ident ""
    /\ GetUsername cfg = "alice"
    /\ snd (setUsername cfg "") = None
    /\ GetUsername (fst (setUsername cfg "")) = ""
    /\ GetServerName cfg = "web-1"
    /\ snd (setServerName cfg "") = None
    /\ GetServerName (fst (setServerName cfg "")) = ""
    /\ GetServerType cfg = "minecraft"
    /\ snd (SetType cfg "") = None
    /\ GetServerType (fst (SetType cfg "")) = "".
Proof.
  eexists. split; [vm_compute; reflexivity |].
  split; [| now repeat split].
  intros H. apply matches_ident_valid in H. discriminate.
Qed.

(** C7: the projection does not show every stored field under its own
    name, [Disk] shows the RAM: in a configuration with every field set to
    a valid value, RAM "4" and disk "10", the projection has "4Gi" as its
    [Disk], the form of the RAM, where the form of the stored disk is
    "10Gi"; the other eight fields show their own field. *)
Theorem WebConfig_Disk_is_not_the_disk :
  exists cfg,
    populated = Returns cfg
    /\ OpenAPISchemaFormat (GetDisk cfg) = "10Gi"
    /\ OpenAPISchemaFormat (GetRAM cfg) = "4Gi"
    /\ Disk (WebConfig cfg) = "4Gi"
    /\ Disk (WebConfig cfg) <> OpenAPISchemaFormat (GetDisk cfg)
    /\ WebConfig cfg
       = mkWebConfig "alice" "web-1" "minecraft" "2" "4Gi" "4Gi" "10.0.0.7"
                     25565 30001.
Proof.
  eexists. split; [vm_compute; reflexivity |].
  repeat split. discriminate.
Qed.

(** C8: the client is not built once and shared: two constructions in
    one process build two clients, and the two instances hold different
    client handles. *)
Lemma client_handle_not_shared :
  exists w1 c1 w2 c2,
    New fresh "alice" "web-1" = Returns (w1, c1)
    /\ New w1 "alice" "web-2" = Returns (w2, c2)
    /\ List.length (clientsets fresh) = 0
    /\ List.length (clientsets w2) = 2
    /\ GetKubeConfig c1 = Some 0
    /\ GetKubeConfig c2 = Some 1
    /\ GetKubeConfig c1 <> GetKubeConfig c2.
Proof.
  do 4 eexists. split; [vm_compute; reflexivity |].
  split; [vm_compute; reflexivity |].
  repeat split. discriminate.
Qed.

End sample_runs.

(** ** What the identifier setters accept, store and refuse *)
Section setter_decisions.

Context {imports : Imports}.

Lemma found_whole_matches (s : string) :
  found_whole s = true <-> s = "" \/ matches_ident s.
Proof.
  rewrite found_whole_iff. split; intros [H | H]; auto;
    right; now apply matches_ident_valid.
Qed.

Lemma found_whole_foreign (s : string) :
  has_foreign_byte s = true -> found_whole s = false.
Proof.
  intros H. destruct (found_whole s) eqn:Hf; [| reflexivity].
  apply found_whole_iff in Hf as [-> | Hv]; [discriminate |].
  apply valid_bytes_all in Hv. rewrite Forall_forall in Hv.
  apply existsb_exists in H as [c [Hin Hc]].
  rewrite (Hv _ Hin) in Hc. discriminate.
Qed.

Lemma list_ascii_of_string_app (s t : string) :
  list_ascii_of_string (s ++ t)
  = (list_ascii_of_string s ++ list_ascii_of_string t)%list.
Proof. induction s as [|c s IH]; simpl; [reflexivity | now rewrite IH]. Qed.

Lemma found_whole_trailing_hyphen (s : string) :
  found_whole (s ++ "-") = false.
Proof.
  destruct (found_whole (s ++ "-")) eqn:Hf; [| reflexivity].
  apply found_whole_iff in Hf as [He | Hv].
  - destruct s; discriminate.
  - unfold valid_identifier in Hv. rewrite list_ascii_of_string_app in Hv.
    simpl in Hv.
    destruct (list_ascii_of_string s) as [|c rest]; [discriminate |].
    cbn [app valid_bytes] in Hv. rewrite last_last in Hv.
    apply andb_prop in Hv as [_ Hv]. discriminate.
Qed.

(** Each identifier setter returns nil exactly on the empty string and on
    the strings that match [^[a-z]([-a-z0-9]*[a-z0-9])?$] as a whole. *)
Theorem setter_error_iff (cfg : ServerConfig) (s : string) :
  (snd (setUsername cfg s) = None <-> s = "" \/ matches_ident s)
  /\ (snd (setServerName cfg s) = None <-> s = "" \/ matches_ident s)
  /\ (snd (SetType cfg s) = None <-> s = "" \/ matches_ident s).
Proof.
  rewrite setUsername_eq, setServerName_eq, SetType_eq.
  rewrite <- found_whole_matches.
  destruct (found_whole s); simpl; repeat split; congruence.
Qed.

(** A setter that returns nil has stored its argument byte for byte, the
    call of [strings.ToLower] changes nothing, and has left every other
    field as it was. *)
Theorem setters_store_verbatim (cfg : ServerConfig) (s : string) :
  (snd (setUsername cfg s) = None ->
   fst (setUsername cfg s) = with_username cfg s)
  /\ (snd (setServerName cfg s) = None ->
      fst (setServerName cfg s) = with_serverName cfg s)
  /\ (snd (SetType cfg s) = None ->
      fst (SetType cfg s) = with_serverType cfg s).
Proof.
  rewrite setUsername_eq, setServerName_eq, SetType_eq.
  destruct (found_whole s) eqn:Hf; simpl; repeat split;
    try discriminate; intros _; now rewrite (ToLower_found_whole _ Hf).
Qed.

(** A string that holds any byte other than a lowercase letter, a digit or
    a hyphen (a space, a dot, an upper-case letter, a byte of a non-ASCII
    rune) is refused by the three setters, which return their error and
    the configuration as it was. *)
Theorem setters_reject_foreign_byte (cfg : ServerConfig) (s : string) :
  has_foreign_byte s = true ->
  setUsername cfg s
  = (cfg, Some "username must contain only alphanumeric, lowercase characters")
  /\ setServerName cfg s
     = (cfg, Some "servername must contain only alphanumeric, lowercase characters")
  /\ SetType cfg s
     = (cfg, Some "servertype must contain only alphanumeric, lowercase characters").
Proof.
  intros H. rewrite setUsername_eq, setServerName_eq, SetType_eq.
  now rewrite (found_whole_foreign _ H).
Qed.

(** A string that ends in a hyphen is refused by the three setters,
    whatever comes before the hyphen. *)
Theorem setters_reject_trailing_hyphen (cfg : ServerConfig) (s : string) :
  setUsername cfg (s ++ "-")
  = (cfg, Some "username must contain only alphanumeric, lowercase characters")
  /\ setServerName cfg (s ++ "-")
     = (cfg, Some "servername must contain only alphanumeric, lowercase characters")
  /\ SetType cfg (s ++ "-")
     = (cfg, Some "servertype must contain only alphanumeric, lowercase characters").
Proof.
  rewrite setUsername_eq, setServerName_eq, SetType_eq.
  now rewrite found_whole_trailing_hyphen.
Qed.

End setter_decisions.

(** ** What a construction returns, and how the setters compose *)
Section composition_facts.

Context {imports : Imports}.

Lemma stored_after_test (s : string) :
  (if found_whole s then ToLower s else "")
  = (if valid_identifier s then s else "").
Proof.
  destruct (found_whole s) eqn:Hf.
  - rewrite (ToLower_found_whole _ Hf).
    apply found_whole_iff in Hf as [-> | Hv]; [reflexivity | now rewrite Hv].
  - destruct (valid_identifier s) eqn:Hv; [| reflexivity].
    apply found_whole_valid in Hv. congruence.
Qed.

(** A construction that returns gives a configuration whose username and
    server name are the arguments that are valid identifiers and the empty
    string for the others, the validation errors being dropped; every
    other field has its zero value, and the handle is the new client. *)
Theorem New_fields
    (w w' : Process) (name server : string) (cfg : ServerConfig) :
  New w name server = Returns (w', cfg) ->
  cfg = mkServerConfig
          (if valid_identifier name then name else "")
          (if valid_identifier server then server else "")
          "" Quantity_zero Quantity_zero Quantity_zero "" 0%Z 0%Z ""
          (Some (List.length (clientsets w))).
Proof.
  rewrite New_eq.
  destruct (BuildConfigFromFlags _ _) as [config|]; [| discriminate].
  destruct (NewForConfig _) as [cs|]; [| discriminate].
  intros [= _ <-].
  rewrite <- (stored_after_test name), <- (stored_after_test server).
  rewrite setUsername_eq, setServerName_eq.
  destruct (found_whole name), (found_whole server); reflexivity.
Qed.

(** The handle of a configuration that [New] returns points to the client
    built from the credentials at the kubeconfig path, and the clients
    built before it are where they were. *)
Theorem New_handle_points_to_client
    (w w' : Process) (name server : string) (cfg : ServerConfig) :
  New w name server = Returns (w', cfg) ->
  exists config cs a,
    BuildConfigFromFlags "" (kubeconfig_path w) = Ok config
    /\ NewForConfig config = Ok cs
    /\ GetKubeConfig cfg = Some a
    /\ nth_error (clientsets w') a = Some cs
    /\ forall b, b < List.length (clientsets w) ->
                 nth_error (clientsets w') b = nth_error (clientsets w) b.
Proof.
  intros H. pose proof (New_returns _ _ _ H) as (_ & _ & Ha).
  rewrite New_eq in H.
  destruct (BuildConfigFromFlags _ _) as [config|]; [| discriminate].
  destruct (NewForConfig config) as [cs|] eqn:Hcs; [| discriminate].
  injection H as <- _.
  exists config, cs, (List.length (clientsets w)). simpl.
  repeat split; auto.
  - rewrite nth_error_app2 by lia. now rewrite Nat.sub_diag.
  - intros b Hb. now apply nth_error_app1.
Qed.

(** No setter touches the client handle: after any sequence of setter
    calls [GetKubeConfig] returns what it returned before. *)
Theorem calls_keep_clientset (cs : list Call) :
  forall cfg, GetKubeConfig (calls cfg cs) = GetKubeConfig cfg.
Proof.
  unfold calls, GetKubeConfig.
  induction cs as [|c cs IH]; intros cfg; simpl; [reflexivity |].
  rewrite IH.
  destruct c as [s | s | s | p | p | s | s | s | s | s]; simpl;
    try reflexivity.
  - apply clientset_setUsername.
  - apply clientset_setServerName.
  - rewrite SetType_eq. now destruct (found_whole s).
  - unfold SetCPU. now destruct (ParseQuantity s).
  - unfold SetRAM. now destruct (ParseQuantity _).
  - unfold SetDisk. now destruct (ParseQuantity _).
Qed.

(** [SetDisk] never shows in the web projection, whatever its argument,
    while a [SetRAM] that parses shows in both the [RAM] and the [Disk]
    field. *)
Theorem WebConfig_after_SetDisk_and_SetRAM (cfg : ServerConfig) (s : string) :
  WebConfig (SetDisk cfg s) = WebConfig cfg
  /\ forall q, ParseQuantity (s ++ "Gi") = Ok q ->
               RAM (WebConfig (SetRAM cfg s)) = OpenAPISchemaFormat q
               /\ Disk (WebConfig (SetRAM cfg s)) = OpenAPISchemaFormat q.
Proof.
  split.
  - unfold SetDisk. now destruct (ParseQuantity _).
  - intros q H. unfold SetRAM. now rewrite H.
Qed.

Ltac run_setters :=
  simpl;
  rewrite ?setUsername_eq, ?setServerName_eq, ?SetType_eq;
  unfold SetCPU, SetRAM, SetDisk, SetInternalPort, SetExternalPort,
    SetIP, SetProtocol;
  repeat match goal with
    | |- context [found_whole ?s] => destruct (found_whole s)
    | |- context [ParseQuantity ?s] => destruct (ParseQuantity s)
    end;
  simpl.

(** Calls that assign different fields commute. *)
Theorem calls_commute (cfg : ServerConfig) (a b : Call) :
  field_of a <> field_of b ->
  call (call cfg a) b = call (call cfg b) a.
Proof.
  intros H.
  destruct a, b; simpl in H; try congruence; run_setters; reflexivity.
Qed.

(** Repeating a call changes nothing. *)
Theorem call_idempotent (cfg : ServerConfig) (c : Call) :
  call (call cfg c) c = call cfg c.
Proof. destruct c; run_setters; reflexivity. Qed.

(** A call that passes the test of its setter overwrites what an earlier
    call to the same field did: only the last accepted value is kept. *)
Theorem call_overwrites (cfg : ServerConfig) (a b : Call) :
  field_of a = field_of b -> accepted b = true ->
  call (call cfg a) b = call cfg b.
Proof.
  intros Hf Hb.
  destruct a, b; simpl in Hf; try discriminate; simpl in Hb;
    unfold parses in Hb; simpl;
    rewrite ?setUsername_eq, ?setServerName_eq, ?SetType_eq;
    unfold SetCPU, SetRAM, SetDisk, SetInternalPort, SetExternalPort,
      SetIP, SetProtocol;
    try rewrite Hb;
    repeat match goal with
      | H : match ParseQuantity ?s with _ => _ end = true |- _ =>
          destruct (ParseQuantity s); [| discriminate]
      | |- context [found_whole ?s] => destruct (found_whole s)
      | |- context [ParseQuantity ?s] => destruct (ParseQuantity s)
      end;
    reflexivity.
Qed.

Lemma call_parsed (cfg : ServerConfig) (c : Call) :
  parsed_plain (cpu cfg) /\ parsed_Gi (ram cfg) /\ parsed_Gi (disk cfg) ->
  parsed_plain (cpu (call cfg c)) /\ parsed_Gi (ram (call cfg c))
  /\ parsed_Gi (disk (call cfg c)).
Proof.
  intros (Hc & Hr & Hd).
  destruct c as [s | s | s | p | p | s | s | s | s | s]; simpl.
  - rewrite setUsername_eq. destruct (found_whole s); simpl; auto.
  - rewrite setServerName_eq. destruct (found_whole s); simpl; auto.
  - rewrite SetType_eq. destruct (found_whole s); simpl; auto.
  - auto.
  - auto.
  - auto.
  - auto.
  - unfold SetCPU. destruct (ParseQuantity s) as [q|] eqn:Hq; simpl; auto.
    repeat split; auto. right. now exists s.
  - unfold SetRAM. destruct (ParseQuantity (s ++ "Gi")) as [q|] eqn:Hq;
      simpl; auto.
    repeat split; auto. right. now exists s.
  - unfold SetDisk. destruct (ParseQuantity (s ++ "Gi")) as [q|] eqn:Hq;
      simpl; auto.
    repeat split; auto. right. now exists s.
Qed.

(** In a configuration that [New] has returned, and after any sequence of
    setter calls on it, the CPU is the zero quantity or a quantity that
    [resource.ParseQuantity] returned, and the RAM and the disk are the
    zero quantity or a quantity that it returned on a string ending in
    "Gi": no quantity enters a configuration but through the parser. *)
Theorem quantities_come_from_parser
    (w w' : Process) (name server : string) (cfg : ServerConfig)
    (cs : list Call) :
  New w name server = Returns (w', cfg) ->
  parsed_plain (GetCPU (calls cfg cs))
  /\ parsed_Gi (GetRAM (calls cfg cs))
  /\ parsed_Gi (GetDisk (calls cfg cs)).
Proof.
  intros H. apply New_fields in H. unfold GetCPU, GetRAM, GetDisk, calls.
  assert (H0 : parsed_plain (cpu cfg) /\ parsed_Gi (ram cfg)
               /\ parsed_Gi (disk cfg))
    by (subst cfg; simpl; repeat split; now left).
  clear H. revert cfg H0.
  induction cs as [|c cs IH]; intros cfg H0; simpl; [assumption |].
  apply IH. now apply call_parsed.
Qed.

End composition_facts.

(** ** More runs on the sample imports *)
Section sample_runs_composition.

Import Sample.

Lemma setter_error_iff_witness :
  snd (setUsername zeroServerConfig "web-1") = None
  /\ ("Web 1" = "" \/ matches_ident "Web 1" -> False).
Proof.
  pose proof (@setter_error_iff sample_imports zeroServerConfig "web-1") as H1.
  pose proof (@setter_error_iff sample_imports zeroServerConfig "Web 1") as H2.
  split.
  - apply (proj1 H1). right. apply matches_ident_valid. reflexivity.
  - intros H. apply (proj1 H2) in H. vm_compute in H. discriminate H.
Defined.

Lemma setters_store_verbatim_witness :
  fst (setUsername zeroServerConfig "web-1")
  = with_username zeroServerConfig "web-1"
  /\ fst (SetType zeroServerConfig "a--b9")
     = with_serverType zeroServerConfig "a--b9".
Proof.
  pose proof (@setters_store_verbatim sample_imports zeroServerConfig "web-1")
    as H1.
  pose proof (@setters_store_verbatim sample_imports zeroServerConfig "a--b9")
    as H2.
  split.
  - apply (proj1 H1). reflexivity.
  - apply (proj2 (proj2 H2)). reflexivity.
Defined.

Lemma setters_reject_foreign_byte_witness :
  has_foreign_byte "web 1" = true
  /\ setUsername zeroServerConfig "web 1"
     = (zeroServerConfig,
        Some "username must contain only alphanumeric, lowercase characters").
Proof.
  split; [reflexivity |].
  apply (proj1 (@setters_reject_foreign_byte sample_imports zeroServerConfig
                  "web 1" eq_refl)).
Defined.

Lemma New_fields_witness :
  exists w' cfg,
    New fresh "Bob!" "web-1" = Returns (w', cfg)
    /\ cfg = mkServerConfig "" "web-1" "" Quantity_zero Quantity_zero
               Quantity_zero "" 0%Z 0%Z "" (Some 0).
Proof.
  eexists. eexists. split; [vm_compute; reflexivity |].
  eapply (@New_fields sample_imports fresh _ "Bob!" "web-1").
  vm_compute. reflexivity.
Defined.

Lemma New_handle_points_to_client_witness :
  exists w1 c1 w2 c2,
    New fresh "alice" "web-1" = Returns (w1, c1)
    /\ New w1 "bob" "web-2" = Returns (w2, c2)
    /\ exists config cs a,
         BuildConfigFromFlags "" (kubeconfig_path w1) = Ok config
         /\ NewForConfig config = Ok cs
         /\ GetKubeConfig c2 = Some a
         /\ nth_error (clientsets w2) a = Some cs
         /\ forall b, b < List.length (clientsets w1) ->
                      nth_error (clientsets w2) b = nth_error (clientsets w1) b.
Proof.
  do 4 eexists. split; [vm_compute; reflexivity |].
  split; [vm_compute; reflexivity |].
  eapply (@New_handle_points_to_client sample_imports _ _ "bob" "web-2").
  vm_compute. reflexivity.
Defined.

Lemma WebConfig_after_SetDisk_and_SetRAM_witness :
  WebConfig (SetDisk zeroServerConfig "10") = WebConfig zeroServerConfig
  /\ RAM (WebConfig (SetRAM zeroServerConfig "4")) = "4Gi"
  /\ Disk (WebConfig (SetRAM zeroServerConfig "4")) = "4Gi".
Proof.
  pose proof (@WebConfig_after_SetDisk_and_SetRAM sample_imports
                zeroServerConfig "10") as H1.
  pose proof (@WebConfig_after_SetDisk_and_SetRAM sample_imports
                zeroServerConfig "4") as H2.
  split; [exact (proj1 H1) |].
  exact (proj2 H2 (mkQuantity 4 Gi) eq_refl).
Defined.

Lemma calls_commute_witness :
  field_of (CallSetRAM "4") <> field_of (CallSetUsername "alice")
  /\ call (call zeroServerConfig (CallSetRAM "4")) (CallSetUsername "alice")
     = call (call zeroServerConfig (CallSetUsername "alice")) (CallSetRAM "4").
Proof.
  assert (H : field_of (CallSetRAM "4") <> field_of (CallSetUsername "alice"))
    by (simpl; discriminate).
  split; [exact H |].
  exact (@calls_commute sample_imports zeroServerConfig _ _ H).
Defined.

Lemma call_overwrites_witness :
  field_of (CallSetDisk "10") = field_of (CallSetDisk "20")
  /\ accepted (CallSetDisk "20") = true
  /\ call (call zeroServerConfig (CallSetDisk "10")) (CallSetDisk "20")
     = call zeroServerConfig (CallSetDisk "20").
Proof.
  split; [reflexivity | split; [reflexivity |]].
  exact (@call_overwrites sample_imports zeroServerConfig
           (CallSetDisk "10") (CallSetDisk "20") eq_refl eq_refl).
Defined.

Lemma quantities_come_from_parser_witness :
  exists w' cfg,
    New fresh "alice" "web-1" = Returns (w', cfg)
    /\ parsed_plain
         (GetCPU (calls cfg [CallSetCPU "2"; CallSetRAM "x"; CallSetDisk "10"]))
    /\ parsed_Gi
         (GetRAM (calls cfg [CallSetCPU "2"; CallSetRAM "x"; CallSetDisk "10"]))
    /\ parsed_Gi
         (GetDisk (calls cfg [CallSetCPU "2"; CallSetRAM "x"; CallSetDisk "10"])).
Proof.
  eexists. eexists. split; [vm_compute; reflexivity |].
  eapply (@quantities_come_from_parser sample_imports fresh _ "alice" "web-1").
  vm_compute. reflexivity.
Defined.

End sample_runs_composition.

(** ** What the web projection does not show *)
Section projection_blind_spots.

Context {imports : Imports}.

(** The web projection shows neither the protocol nor the disk: a
    sequence of calls that only set these two leaves it as it was,
    whether the calls pass or fail. *)
Theorem WebConfig_blind_to_protocol_and_disk (cs : list Call) :
  Forall (fun c => field_of c = FProtocol \/ field_of c = FDisk) cs ->
  forall cfg, WebConfig (calls cfg cs) = WebConfig cfg.
Proof.
  unfold calls. induction 1 as [|c cs Hc _ IH]; intros cfg; simpl;
    [reflexivity |].
  rewrite IH.
  destruct c; simpl in Hc; destruct Hc as [Hc | Hc]; try discriminate;
    simpl; [reflexivity |].
  unfold SetDisk. now destruct (ParseQuantity _).
Qed.

End projection_blind_spots.

Section sample_runs_projection.

Import Sample.

Lemma WebConfig_blind_to_protocol_and_disk_witness :
  WebConfig (calls (SetRAM zeroServerConfig "4")
               [CallSetProtocol "UDP"; CallSetDisk "10"; CallSetDisk "x"])
  = WebConfig (SetRAM zeroServerConfig "4").
Proof.
  apply (@WebConfig_blind_to_protocol_and_disk sample_imports
           [CallSetProtocol "UDP"; CallSetDisk "10"; CallSetDisk "x"]).
  constructor; [left; reflexivity |].
  constructor; [right; reflexivity |].
  constructor; [right; reflexivity | constructor].
Defined.

End sample_runs_projection.
